(** * A model of [createPausableStream] (src/src/index.js)

    The stream is built on Bacon.fromBinder.  Once the first subscriber
    arrives, the binder subscribes a handler to [pauseProperty]; every
    push on [pauseStream] (made by [pause()] and [resume()]) calls that
    handler synchronously.  The pump [repeatUntilPaused] queues one job
    per iteration on the microtask queue through [Promise.resolve().then].

    The model is a state record threaded through the handler, the job of
    one pump iteration and the world's actions (run a queued microtask,
    call [pause()], call [resume()], unsubscribe).  All queued jobs are
    the same closure [() => pauseSink(generatorFunction())], so the queue
    is kept as a count. *)

From Stdlib Require Import Bool Arith Lia String List.
Import ListNotations.


(** ** JavaScript values *)

(** The values a callback producer can return: [undefined], [null], a
    plain value (one without an [isEnd] member: numbers, strings,
    ordinary objects), a [Bacon.Error] instance and a [Bacon.End]
    instance. *)
Inductive jsval :=
| JUndef
| JNull
| JPlain (n : nat)
| JErrorEv (e : nat)
| JEndEv.

(** One call of the producer: it returns a value or throws. *)
Inductive outcome :=
| Returns (v : jsval)
| Throws (e : nat).

(** The Bacon events that reach the subscribers. *)
Inductive ev :=
| Next (v : jsval)
| ErrorE (e : nat)
| EndE.

(** The exceptions that escape a pump iteration; they reject the promise
    returned by [repeatUntilPaused], which nobody handles. *)
Inductive jserr :=
| ProducerErr (e : nat)
| TypeErr.

(** What Bacon's [sink] makes of a value: a [Bacon.Event] is passed as
    it is, any other value is wrapped in a [Next] event. *)
Definition to_event (v : jsval) : ev :=
  match v with
  | JErrorEv e => ErrorE e
  | JEndEv => EndE
  | _ => Next v
  end.

(** The test [streamEvent.isEnd && streamEvent.isEnd()] of [pauseSink].
    Reading the member [isEnd] of [undefined] or [null] raises a
    [TypeError]; a plain value has no [isEnd] member (falsy). *)
Definition is_end_test (v : jsval) : option bool :=
  match v with
  | JUndef | JNull => None
  | JPlain _ => Some false
  | JErrorEv _ => Some false
  | JEndEv => Some true
  end.

(** ** State *)

(** [paused] is the closure variable [paused] ([null] initially),
    [hasEnded] the closure variable of the same name, [jobs] the number of
    queued pump iterations, [pulls] the number of calls made to the
    producer so far, [out] the events delivered to the subscriber,
    [errs] the rejections of the pump's promises, [subscribed] whether the
    subscriber is still subscribed and [closed] whether Bacon has
    dispatched [End] (after which the dispatcher drops events). *)
Record St := mkSt {
  paused : option bool;
  hasEnded : bool;
  jobs : nat;
  pulls : nat;
  out : list ev;
  errs : list jserr;
  subscribed : bool;
  closed : bool
}.

Definition set_paused (p : option bool) (s : St) : St :=
  mkSt p (hasEnded s) (jobs s) (pulls s) (out s) (errs s) (subscribed s) (closed s).
Definition set_hasEnded (b : bool) (s : St) : St :=
  mkSt (paused s) b (jobs s) (pulls s) (out s) (errs s) (subscribed s) (closed s).
Definition set_jobs (n : nat) (s : St) : St :=
  mkSt (paused s) (hasEnded s) n (pulls s) (out s) (errs s) (subscribed s) (closed s).
Definition set_pulls (n : nat) (s : St) : St :=
  mkSt (paused s) (hasEnded s) (jobs s) n (out s) (errs s) (subscribed s) (closed s).
Definition set_out (o : list ev) (s : St) : St :=
  mkSt (paused s) (hasEnded s) (jobs s) (pulls s) o (errs s) (subscribed s) (closed s).
Definition set_errs (l : list jserr) (s : St) : St :=
  mkSt (paused s) (hasEnded s) (jobs s) (pulls s) (out s) l (subscribed s) (closed s).
Definition set_subscribed (b : bool) (s : St) : St :=
  mkSt (paused s) (hasEnded s) (jobs s) (pulls s) (out s) (errs s) b (closed s).
Definition set_closed (b : bool) (s : St) : St :=
  mkSt (paused s) (hasEnded s) (jobs s) (pulls s) (out s) (errs s) (subscribed s) b.

(** JavaScript's [!paused] on [null | true | false]. *)
Definition not_paused (p : option bool) : bool :=
  match p with Some true => false | _ => true end.

(** [paused !== pauseValue]. *)
Definition differs (p : option bool) (v : bool) : bool :=
  match p with None => true | Some b => negb (Bool.eqb b v) end.

(** ** The pause gate *)

(** [repeatUntilPaused(func)]: [Promise.resolve().then(...)] queues one
    job and returns at once. *)
Definition repeatUntilPaused (s : St) : St := set_jobs (S (jobs s)) s.

(** The handler given to [pauseProperty.onValue] (lines 74-88). *)
Definition onPauseValue (pauseValue : bool) (s : St) : St :=
  if differs (paused s) pauseValue then
    let s1 := set_paused (Some pauseValue) s in
    if negb pauseValue && negb (hasEnded s1) then repeatUntilPaused s1 else s1
  else s.

(** [pausableStream.pause] and [pausableStream.resume] (lines 93-94):
    the push on the Bus reaches the handler synchronously. *)
Definition pause (s : St) : St := onPauseValue true s.
Definition resume (s : St) : St := onPauseValue false s.

(** The calls a subscriber's callback makes. *)
Inductive ctl := CPause | CResume.

Definition do_ctl (c : ctl) (s : St) : St :=
  match c with CPause => pause s | CResume => resume s end.

Fixpoint do_ctls (cs : list ctl) (s : St) : St :=
  match cs with
  | [] => s
  | c :: cs' => do_ctls cs' (do_ctl c s)
  end.

Section Stream.

(** The producer: the result of its [i]-th call (counting from 0).  Its
    hidden state is its own; the core only calls it. *)
Variable generatorFunction : nat -> outcome.

(** The subscriber's callback: given the events delivered so far (the
    new one last), the [pause()]/[resume()] calls it makes before
    returning. *)
Variable onEvent : list ev -> list ctl.

(** Bacon's [sink] as seen from the binder: the event goes to the
    subscriber unless it unsubscribed or the stream already ended. *)
Definition sink (e : ev) (s : St) : St :=
  if subscribed s && negb (closed s) then
    let o := out s ++ [e] in
    let s1 := set_closed (match e with EndE => true | _ => false end)
                (set_out o s) in
    do_ctls (onEvent o) s1
  else s.

(** [pauseSink] (lines 62-71); [None] is the [TypeError]. *)
Definition pauseSink (v : jsval) (s : St) : option St :=
  match is_end_test v with
  | None => None
  | Some isEnd =>
      let s1 := if isEnd then set_hasEnded true s else s in
      Some (sink (to_event v) s1)
  end.

(** One job of [repeatUntilPaused] (lines 111-117): [func()], then the
    reschedule test.  An exception aborts the callback and rejects its
    promise. *)
Definition pump_job (s : St) : St :=
  let s0 := set_pulls (S (pulls s)) s in
  match generatorFunction (pulls s) with
  | Throws e => set_errs (errs s0 ++ [ProducerErr e]) s0
  | Returns v =>
      match pauseSink v s0 with
      | None => set_errs (errs s0 ++ [TypeErr]) s0
      | Some s1 =>
          if not_paused (paused s1) && negb (hasEnded s1)
          then repeatUntilPaused s1 else s1
      end
  end.

(** The value [Bacon.fromBinder]'s binder returns, run when the last
    subscriber leaves: the binder of lines 59-89 returns [undefined]. *)
Definition binder_unsub : option (St -> St) := None.

Definition unsubscribe (s : St) : St :=
  let s1 := set_subscribed false s in
  match binder_unsub with Some f => f s1 | None => s1 end.

(** The world's actions. *)
Inductive act := AJob | APause | AResume | AUnsub.

(** [AJob] runs the oldest queued microtask, if any. *)
Definition exec (a : act) (s : St) : St :=
  match a with
  | AJob =>
      match jobs s with
      | 0 => s
      | S n => pump_job (set_jobs n s)
      end
  | APause => pause s
  | AResume => resume s
  | AUnsub => unsubscribe s
  end.

Fixpoint run (acts : list act) (s : St) : St :=
  match acts with
  | [] => s
  | a :: acts' => run acts' (exec a s)
  end.

End Stream.

(** The state right after the first subscription: the binder subscribes
    the handler, which receives [initiallyPaused] synchronously. *)
Definition fresh : St := mkSt None false 0 0 [] [] true false.

Definition subscribe_init (initiallyPaused : bool) : St :=
  onPauseValue initiallyPaused fresh.

(** A callback producer that yields the values of [l] and then returns
    [new Bacon.End()]. *)
Definition seq_gen (l : list jsval) (i : nat) : outcome :=
  Returns (nth i l JEndEv).

(** A subscriber that never calls [pause()] or [resume()]. *)
Definition quiet (_ : list ev) : list ctl := [].

(** ** Construction (lines 41-45) *)

(** JavaScript's primitive values, by type. *)
Inductive prim := PUndefined | PNull | PBoolean | PNumber | PString | PSymbol.

Definition typeof_prim (p : prim) : string :=
  match p with
  | PUndefined => "undefined"
  | PNull => "object"
  | PBoolean => "boolean"
  | PNumber => "number"
  | PString => "string"
  | PSymbol => "symbol"
  end%string.

(** The argument given to [createPausableStream]: a function (its arity
    and whether it is a [function*]), an iterator object (a generator
    object or any object with [next]), another plain object, an array or
    a primitive. *)
Inductive jsarg :=
| ArgFunction (arity : nat) (isGenerator : bool)
| ArgIterator
| ArgObject
| ArgArray
| ArgPrimitive (ty : prim).

Definition typeof (a : jsarg) : string :=
  match a with
  | ArgFunction _ _ => "function"%string
  | ArgIterator | ArgObject | ArgArray => "object"%string
  | ArgPrimitive p => typeof_prim p
  end.

(** The stream returned before any subscription: nothing is pulled until
    the binder runs. *)
Record Handle := mkHandle {
  h_generator : jsarg;
  h_initiallyPaused : bool
}.

(** [createPausableStream]: [inl msg] is the [Error] thrown. *)
Definition createPausableStream (generatorFunction : jsarg)
    (initiallyPaused : bool) : string + Handle :=
  if negb (String.eqb (typeof generatorFunction) "function"%string)
  then inl "generatorFunction is not a function"%string
  else inr (mkHandle generatorFunction initiallyPaused).

(** ** Small runs *)

Example run_two_values :
  out (run (seq_gen [JPlain 0; JPlain 1]) quiet [AJob; AJob; AJob; AJob]
         (subscribe_init false))
  = [Next (JPlain 0); Next (JPlain 1); EndE].
Proof. reflexivity. Qed.

Example run_initially_paused :
  out (run (seq_gen [JPlain 0]) quiet [AJob; AJob; AResume; AJob; AJob]
         (subscribe_init true))
  = [Next (JPlain 0); EndE].
Proof. reflexivity. Qed.

Example run_pause_at_one :
  out (run (seq_gen [JPlain 0; JPlain 1])
         (fun o => if length o =? 1 then [CPause] else [])
         [AJob; AJob; AJob] (subscribe_init false))
  = [Next (JPlain 0)].
Proof. reflexivity. Qed.

(** ** Lemmas on the gate *)

Lemma onPauseValue_paused (b : bool) (s : St) :
  paused (onPauseValue b s) = Some b.
Proof.
  unfold onPauseValue, differs.
  destruct (paused s) as [p|] eqn:Hp; simpl.
  - destruct p, b; simpl; try destruct (hasEnded s); simpl; congruence.
  - destruct b, (hasEnded s); reflexivity.
Qed.

Lemma onPauseValue_idem (b : bool) (s : St) :
  onPauseValue b (onPauseValue b s) = onPauseValue b s.
Proof.
  unfold onPauseValue at 1. rewrite onPauseValue_paused.
  simpl. rewrite Bool.eqb_reflx. reflexivity.
Qed.

Lemma onPauseValue_jobs (b : bool) (s : St) :
  jobs (onPauseValue b s) =
  if differs (paused s) b && negb b && negb (hasEnded s)
  then S (jobs s) else jobs s.
Proof.
  unfold onPauseValue. simpl.
  destruct (differs (paused s) b), b, (hasEnded s); reflexivity.
Qed.

Lemma pause_jobs (s : St) : jobs (pause s) = jobs s.
Proof. unfold pause. rewrite onPauseValue_jobs. now rewrite !andb_false_r. Qed.

Lemma run_repeat_same (gen : nat -> outcome) (onv : list ev -> list ctl)
    (a : act) (s : St) (n : nat) :
  exec gen onv a (exec gen onv a s) = exec gen onv a s ->
  run gen onv (repeat a (S n)) s = exec gen onv a s.
Proof.
  intros Hid. simpl. induction n as [|n IH]; [reflexivity|].
  simpl. rewrite Hid. exact IH.
Qed.

(** ** C4: construction *)

(** C4 (code bug): an iterator object, which the spec and the
    repository's tests (src/test/index.test.js) require to be accepted,
    is refused, and a generator function that has not been called, which
    they require to be refused, is accepted. *)
Lemma create_iterator_refused_generator_function_accepted :
  createPausableStream ArgIterator false
    = inl "generatorFunction is not a function"%string /\
  createPausableStream (ArgFunction 0 true) false
    = inr (mkHandle (ArgFunction 0 true) false).
Proof. split; reflexivity. Qed.

(** ** C7: idempotence of [pause()] and [resume()] *)

(** C7: for every state and every [n >= 1], [n] consecutive [pause()]
    calls leave the same state (paused flag, ended flag, queued pump
    iterations, delivered events) as one call, and likewise for
    [resume()]: the calls after the first find [paused === pauseValue]
    and do nothing, so they start no pump. *)
Theorem pause_resume_idempotent :
  forall (gen : nat -> outcome) (onv : list ev -> list ctl) (s : St) (n : nat),
    1 <= n ->
    run gen onv (repeat APause n) s = run gen onv [APause] s /\
    run gen onv (repeat AResume n) s = run gen onv [AResume] s.
Proof.
  intros gen onv s n Hn. destruct n as [|n]; [lia|].
  split; apply run_repeat_same; simpl; apply onPauseValue_idem.
Qed.

Lemma pause_resume_idempotent_witness :
  1 <= 3 /\
  run (seq_gen [JPlain 0]) quiet (repeat APause 3) (subscribe_init true)
    = run (seq_gen [JPlain 0]) quiet [APause] (subscribe_init true) /\
  run (seq_gen [JPlain 0]) quiet (repeat AResume 3) (subscribe_init true)
    = run (seq_gen [JPlain 0]) quiet [AResume] (subscribe_init true).
Proof.
  split; [lia|].
  apply (pause_resume_idempotent (seq_gen [JPlain 0]) quiet _ 3); lia.
Defined.

(** ** Lemmas on runs *)

Lemma run_app (gen : nat -> outcome) (onv : list ev -> list ctl)
    (a1 a2 : list act) (s : St) :
  run gen onv (a1 ++ a2) s = run gen onv a2 (run gen onv a1 s).
Proof. revert s; induction a1 as [|a a1 IH]; intros s; simpl; auto. Qed.

Lemma pause_fields (s : St) :
  paused (pause s) = Some true /\ hasEnded (pause s) = hasEnded s /\
  jobs (pause s) = jobs s /\ pulls (pause s) = pulls s /\
  out (pause s) = out s /\ errs (pause s) = errs s /\
  subscribed (pause s) = subscribed s /\ closed (pause s) = closed s.
Proof.
  split; [apply onPauseValue_paused|].
  unfold pause, onPauseValue; simpl.
  destruct (differs (paused s) true); simpl; repeat split.
Qed.

(** Without [resume()], a stream with no queued iteration never pulls
    again and delivers nothing more. *)
Lemma idle_stays_idle (gen : nat -> outcome) (onv : list ev -> list ctl)
    (acts : list act) (s : St) :
  jobs s = 0 -> ~ In AResume acts ->
  jobs (run gen onv acts s) = 0 /\ pulls (run gen onv acts s) = pulls s /\
  out (run gen onv acts s) = out s.
Proof.
  revert s; induction acts as [|a acts IH]; intros s Hj Hr; simpl; auto.
  assert (Hr' : ~ In AResume acts) by (intros H; apply Hr; right; exact H).
  destruct a; simpl.
  - rewrite Hj. apply IH; auto.
  - destruct (pause_fields s) as (_ & _ & Hj' & Hp & Ho & _).
    destruct (IH (pause s)) as (A & B & C); [congruence|exact Hr'|].
    repeat split; congruence.
  - exfalso; apply Hr; left; reflexivity.
  - exact (IH (unsubscribe s) Hj Hr').
Qed.

(** ** C5 and C1: a producer returning [undefined] *)

(** C5 (code defect): when the producer returns [undefined],
    [pauseSink] evaluates [streamEvent.isEnd] on [undefined] and raises a
    [TypeError]: nothing is delivered, the exception rejects the pump's
    promise, and the iteration does not reschedule, so the stream stalls
    without ending. *)
Theorem pump_undefined_raises :
  forall (gen : nat -> outcome) (onv : list ev -> list ctl) (s : St),
    1 <= jobs s -> gen (pulls s) = Returns JUndef ->
    out (exec gen onv AJob s) = out s /\
    errs (exec gen onv AJob s) = errs s ++ [TypeErr] /\
    jobs (exec gen onv AJob s) = jobs s - 1 /\
    pulls (exec gen onv AJob s) = S (pulls s) /\
    hasEnded (exec gen onv AJob s) = hasEnded s.
Proof.
  intros gen onv s Hj Hg. unfold exec.
  destruct (jobs s) as [|j] eqn:Ej; [lia|].
  unfold pump_job; simpl. rewrite Hg. simpl.
  repeat split; lia.
Qed.

Lemma pump_undefined_raises_witness :
  1 <= jobs (subscribe_init false) /\
  seq_gen [JUndef] (pulls (subscribe_init false)) = Returns JUndef /\
  out (exec (seq_gen [JUndef]) quiet AJob (subscribe_init false)) = [] /\
  errs (exec (seq_gen [JUndef]) quiet AJob (subscribe_init false)) = [TypeErr] /\
  jobs (exec (seq_gen [JUndef]) quiet AJob (subscribe_init false)) = 1 - 1 /\
  pulls (exec (seq_gen [JUndef]) quiet AJob (subscribe_init false)) = 1 /\
  hasEnded (exec (seq_gen [JUndef]) quiet AJob (subscribe_init false)) = false.
Proof.
  split; [simpl; lia|]. split; [reflexivity|].
  apply (pump_undefined_raises (seq_gen [JUndef]) quiet (subscribe_init false));
    reflexivity.
Defined.

(** C1 (code defect, same as C5): the sequence [S = [undefined]] with no
    pause or resume is never delivered: however many microtasks run, the
    subscriber receives no event and no termination, and the stream
    stays open with a rejected promise. *)
Theorem undefined_sequence_not_delivered :
  forall n : nat,
    run (seq_gen [JUndef]) quiet (repeat AJob (S n)) (subscribe_init false)
    = mkSt (Some false) false 0 1 [] [TypeErr] true false /\
    out (run (seq_gen [JUndef]) quiet (repeat AJob (S n)) (subscribe_init false))
    <> [Next JUndef; EndE].
Proof.
  intros n.
  assert (H : run (seq_gen [JUndef]) quiet (repeat AJob (S n)) (subscribe_init false)
              = mkSt (Some false) false 0 1 [] [TypeErr] true false).
  { simpl. induction n as [|n IH]; [reflexivity|]. simpl. exact IH. }
  split; [exact H|]. rewrite H. simpl. discriminate.
Qed.

(** For contrast with C1: when every value of [S] is one [pauseSink]
    accepts (no [undefined] or [null]) and nobody calls [pause()] or
    [resume()], the subscriber receives [S] in order and then one [End]. *)

(** A value that [pauseSink] forwards without ending the stream. *)
Definition ordinary (v : jsval) : bool :=
  match v with JPlain _ | JErrorEv _ => true | _ => false end.

Definition running_after (xs : list jsval) (i : nat) : St :=
  mkSt (Some false) false 1 i (map to_event (firstn i xs)) [] true false.

Lemma firstn_snoc_nth (xs : list jsval) (i : nat) (d : jsval) :
  i < length xs -> firstn (S i) xs = firstn i xs ++ [nth i xs d].
Proof.
  revert i; induction xs as [|x xs IH]; intros i Hi; simpl in *; [lia|].
  destruct i as [|i]; [reflexivity|].
  rewrite firstn_cons. simpl. f_equal. apply IH. lia.
Qed.

Lemma running_after_step (xs : list jsval) (i : nat) :
  forallb ordinary xs = true -> i < length xs ->
  exec (seq_gen xs) quiet AJob (running_after xs i) = running_after xs (S i).
Proof.
  intros Hall Hi.
  assert (Hv : ordinary (nth i xs JEndEv) = true).
  { rewrite forallb_forall in Hall. apply Hall, nth_In, Hi. }
  unfold running_after.
  rewrite (firstn_snoc_nth xs i JEndEv Hi), map_app.
  unfold exec, pump_job, seq_gen; simpl.
  destruct (nth i xs JEndEv); try discriminate; reflexivity.
Qed.

Lemma deliver_ordinary_in_order (xs : list jsval) (n : nat) :
  forallb ordinary xs = true ->
  out (run (seq_gen xs) quiet (repeat AJob (length xs + 1 + n))
         (subscribe_init false))
  = map to_event xs ++ [EndE].
Proof.
  intros Hall.
  assert (Hrun : forall m i, i + m <= length xs ->
            run (seq_gen xs) quiet (repeat AJob m) (running_after xs i)
            = running_after xs (i + m)).
  { induction m as [|m IH]; intros i Hm; cbn [repeat run].
    - rewrite Nat.add_0_r; reflexivity.
    - rewrite running_after_step by (auto; lia).
      rewrite IH by lia. f_equal; lia. }
  replace (length xs + 1 + n) with (length xs + S n) by lia.
  rewrite repeat_app, run_app.
  change (subscribe_init false) with (running_after xs 0).
  rewrite Hrun by lia. simpl.
  unfold running_after at 1, exec, pump_job, seq_gen; simpl.
  rewrite nth_overflow by lia. simpl.
  rewrite firstn_all.
  induction n as [|n IH]; [reflexivity|]. simpl in *. exact IH.
Qed.

(** ** C6 and C3: a pause/resume pair while an iteration is queued *)

(** C6 (code defect): the caller subscribes and then calls [pause()] and
    [resume()] in the same synchronous code.  Both calls change the value,
    so [resume()] starts a second loop while the first iteration is still
    queued; both loops keep rescheduling and pull from the producer. *)
Theorem pause_resume_pending_two_loops :
  let gen := seq_gen [JPlain 0; JPlain 1; JPlain 2; JPlain 3; JPlain 4] in
  jobs (run gen quiet [APause; AResume] (subscribe_init false)) = 2 /\
  jobs (run gen quiet [APause; AResume; AJob; AJob; AJob; AJob]
          (subscribe_init false)) = 2 /\
  pulls (run gen quiet [APause; AResume; AJob; AJob; AJob; AJob]
           (subscribe_init false)) = 4.
Proof. repeat split; reflexivity. Qed.

(** C3 (code defect, same as C6): with two loops queued, the first one
    pulls the [End] sentinel and latches [hasEnded]; the second one's
    queued iteration still runs and pulls the producer again. *)
Theorem pull_after_end_with_two_loops :
  let s1 := run (seq_gen []) quiet [APause; AResume; AJob] (subscribe_init false) in
  hasEnded s1 = true /\ out s1 = [EndE] /\ pulls s1 = 1 /\
  pulls (exec (seq_gen []) quiet AJob s1) = 2.
Proof. repeat split; reflexivity. Qed.

(** ** C8: a producer that throws *)

Definition throws_first (i : nat) : outcome :=
  if i =? 0 then Throws 7 else Returns (JPlain i).

(** C8 (counterexample): the exception is not delivered on the stream's
    error channel (no [Error] event reaches the subscriber; it only
    rejects the pump's promise), and a later [pause()]/[resume()] pair
    pulls the producer again. *)
Lemma producer_throw_not_on_error_channel :
  let s1 := run throws_first quiet [AJob] (subscribe_init false) in
  ~ In (ErrorE 7) (out s1) /\ errs s1 = [ProducerErr 7] /\
  pulls (run throws_first quiet [APause; AResume; AJob] s1) = 2.
Proof.
  simpl. split; [intros []|]. split; reflexivity.
Qed.

(** ** C10: unsubscribing does not stop the pump *)

(** A subscriber that calls [pause()] when the [k]-th event is delivered
    to it. *)
Definition pause_after (k : nat) (o : list ev) : list ctl :=
  if length o =? k then [CPause] else [].

Lemma unsubscribed_job_continues (gen : nat -> outcome)
    (onv : list ev -> list ctl) (s : St) (v : jsval) :
  subscribed s = false -> jobs s = 1 -> not_paused (paused s) = true ->
  hasEnded s = false -> gen (pulls s) = Returns v -> ordinary v = true ->
  exec gen onv AJob s = set_pulls (S (pulls s)) s.
Proof.
  intros Hs Hj Hp He Hg Hv. unfold exec. rewrite Hj.
  unfold pump_job. simpl. rewrite Hg.
  destruct v; try discriminate; unfold pauseSink, sink; simpl;
    rewrite Hs; simpl; rewrite Hp, He; simpl;
    destruct s; simpl in *; subst; reflexivity.
Qed.

Lemma unsubscribed_run_continues (gen : nat -> outcome)
    (onv : list ev -> list ctl) (n : nat) :
  forall s : St,
  subscribed s = false -> jobs s = 1 -> not_paused (paused s) = true ->
  hasEnded s = false ->
  (forall i, i < n -> exists v, gen (pulls s + i) = Returns v /\ ordinary v = true) ->
  run gen onv (repeat AJob n) s = set_pulls (pulls s + n) s.
Proof.
  induction n as [|n IH]; intros s Hs Hj Hp He Hgen.
  - simpl. destruct s; simpl; rewrite Nat.add_0_r; reflexivity.
  - destruct (Hgen 0 ltac:(lia)) as (v & Hg & Hv).
    rewrite Nat.add_0_r in Hg. cbn [repeat run].
    rewrite (unsubscribed_job_continues gen onv s v Hs Hj Hp He Hg Hv).
    rewrite IH; simpl; auto.
    + unfold set_pulls; simpl; f_equal; lia.
    + intros i Hi. destruct (Hgen (S i) ltac:(lia)) as (w & Hw & Hw').
      exists w. split; auto. rewrite <- Hw. f_equal. lia.
Qed.

(** C10: the binder registers no teardown, so after the subscriber
    unsubscribes, a running loop keeps pulling: as long as the producer
    returns ordinary values and nobody calls [pause()], every queued
    iteration pulls once and queues the next one, whatever the
    (now unsubscribed) subscriber's callback would have done. *)
Theorem unsubscribe_keeps_pumping :
  forall (gen : nat -> outcome) (onv onv' : list ev -> list ctl) (s : St) (n : nat),
    jobs s = 1 -> not_paused (paused s) = true -> hasEnded s = false ->
    (forall i, i < n -> exists v, gen (pulls s + i) = Returns v /\ ordinary v = true) ->
    run gen onv (AUnsub :: repeat AJob n) s
      = set_pulls (pulls s + n) (set_subscribed false s) /\
    run gen onv' (AUnsub :: repeat AJob n) s
      = run gen onv (AUnsub :: repeat AJob n) s.
Proof.
  intros gen onv onv' s n Hj Hp He Hgen.
  assert (Hall : forall o, run gen o (AUnsub :: repeat AJob n) s
                           = set_pulls (pulls s + n) (set_subscribed false s)).
  { intros o.
    change (run gen o (repeat AJob n) (set_subscribed false s)
            = set_pulls (pulls s + n) (set_subscribed false s)).
    exact (unsubscribed_run_continues gen o n (set_subscribed false s)
             eq_refl Hj Hp He Hgen). }
  split; [apply Hall|]. rewrite !Hall. reflexivity.
Qed.

Lemma unsubscribe_keeps_pumping_witness :
  jobs (subscribe_init false) = 1 /\
  run (seq_gen [JPlain 0; JPlain 1; JPlain 2]) quiet
      (AUnsub :: repeat AJob 2) (subscribe_init false)
    = set_pulls 2 (set_subscribed false (subscribe_init false)).
Proof.
  split; [reflexivity|].
  destruct (unsubscribe_keeps_pumping (seq_gen [JPlain 0; JPlain 1; JPlain 2])
              quiet (pause_after 1) (subscribe_init false) 2
              eq_refl eq_refl eq_refl) as (A & _).
  - intros i Hi. exists (JPlain i). split; [|reflexivity].
    destruct i as [|[|i]]; [reflexivity|reflexivity|lia].
  - exact A.
Defined.

(** ** C2: pausing from the delivery callback *)

Section PauseAfter.

(** The producer yields [xs] and then [new Bacon.End()]; the subscriber
    calls [pause()] from its callback when it receives the [k]-th
    event. *)
Variable xs : list jsval.
Variable k : nat.
Hypothesis k_pos : 1 <= k.

(** The event the [i]-th call of the producer gives. *)
Definition expected (i : nat) : ev := to_event (nth i xs JEndEv).

(** The invariant of the runs without [resume()]: at most one iteration
    is queued; the delivered events are the producer's first ones in
    order; while an iteration is queued for a live subscriber, every pull
    so far was delivered; and once [k] events are delivered nothing is
    queued. *)
Definition pinv (s : St) : Prop :=
  jobs s <= 1 /\
  out s = map expected (seq 0 (length (out s))) /\
  (jobs s = 1 -> subscribed s = true ->
   length (out s) = pulls s /\ closed s = false) /\
  (k <= length (out s) -> jobs s = 0 /\ length (out s) = k).

Lemma out_extend (o : list ev) (e : ev) :
  o = map expected (seq 0 (length o)) -> expected (length o) = e ->
  o ++ [e] = map expected (seq 0 (length o + 1)).
Proof.
  intros Ho He. rewrite Nat.add_1_r, seq_S, map_app.
  rewrite <- Ho. simpl. rewrite He. reflexivity.
Qed.

Lemma pinv_init : pinv (subscribe_init false).
Proof.
  unfold pinv; simpl. repeat split; intros; lia.
Qed.

Ltac pinv_close :=
  unfold pinv; simpl; repeat split; intros;
  repeat match goal with
         | H : (_ =? _) = true |- _ => apply Nat.eqb_eq in H
         | H : (_ =? _) = false |- _ => apply Nat.eqb_neq in H
         end;
  rewrite ?length_app in *; simpl in *; try lia; try discriminate; auto.

Lemma pinv_job (s : St) :
  pinv s -> pinv (exec (seq_gen xs) (pause_after k) AJob s).
Proof.
  intros Hinv. pose proof Hinv as (Ha & Hb & Hc & Hd).
  destruct s as [p he j pl o er sb cl]; simpl in *.
  unfold exec; simpl. destruct j as [|j]; [exact Hinv|].
  assert (j = 0) by lia; subst j.
  assert (Hlt : length o < k).
  { destruct (Nat.lt_ge_cases (length o) k) as [H|H]; auto.
    destruct (Hd H); discriminate. }
  clear Hd Ha.
  unfold pump_job, seq_gen; simpl.
  destruct (nth pl xs JEndEv) as [| |m|e|] eqn:Hv;
    unfold pauseSink, sink; simpl;
    try (pinv_close; fail).
  all: destruct sb; [destruct (Hc eq_refl eq_refl) as [Hlen Hcl]; subst cl|];
    simpl; [|destruct cl; simpl].
  all: try (unfold pause_after; rewrite length_app; simpl;
            destruct (length o + 1 =? k) eqn:El; simpl).
  all: try (destruct p as [[|]|]; simpl); try destruct he; simpl.
  all: pinv_close.
  all: apply out_extend; auto; unfold expected; rewrite Hlen, Hv; reflexivity.
Qed.

Lemma pinv_step (a : act) (s : St) :
  pinv s -> a <> AResume -> pinv (exec (seq_gen xs) (pause_after k) a s).
Proof.
  intros Hinv Ha. destruct a.
  - apply pinv_job; exact Hinv.
  - destruct (pause_fields s) as (_ & _ & Hj & Hp & Ho & _ & Hs & Hc).
    unfold pinv in *. simpl. rewrite Hj, Hp, Ho, Hs, Hc. exact Hinv.
  - exfalso; apply Ha; reflexivity.
  - destruct Hinv as (H1 & H2 & H3 & H4).
    unfold pinv; simpl. refine (conj H1 (conj H2 (conj _ H4))).
    intros _ E; discriminate.
Qed.

Lemma pinv_run (acts : list act) (s : St) :
  pinv s -> ~ In AResume acts ->
  pinv (run (seq_gen xs) (pause_after k) acts s).
Proof.
  revert s; induction acts as [|a acts IH]; intros s Hinv Hr; simpl; auto.
  apply IH.
  - apply pinv_step; auto. intros E; apply Hr; left; auto.
  - intros H; apply Hr; right; exact H.
Qed.

End PauseAfter.

Lemma expected_prefix (xs : list jsval) (n : nat) :
  n <= length xs ->
  map (expected xs) (seq 0 n) = map to_event (firstn n xs).
Proof.
  revert n; induction xs as [|x xs IH]; intros n Hn;
    destruct n as [|n]; simpl in *; try lia; try reflexivity.
  f_equal. rewrite <- seq_shift, map_map. apply IH; lia.
Qed.

(** In the single-event model: let the subscriber call [pause()] from its callback when it
    receives the [k]-th event ([1 <= k <= |S|]).  In every run without
    [resume()] (any interleaving of queued iterations, further
    [pause()] calls and unsubscription), at most [k] events are
    delivered and they are the first events of [S] in order; once the
    [k]-th one is delivered, the delivered sequence is exactly
    [S[0..k)] and no later run without [resume()] pulls the producer or
    delivers anything. *)
Lemma withholds_next_single :
  forall (xs : list jsval) (k : nat) (acts acts' : list act),
    1 <= k <= length xs -> ~ In AResume acts -> ~ In AResume acts' ->
    let s := run (seq_gen xs) (pause_after k) acts (subscribe_init false) in
    length (out s) <= k /\
    out s = map to_event (firstn (length (out s)) xs) /\
    (length (out s) = k ->
     out s = map to_event (firstn k xs) /\
     out (run (seq_gen xs) (pause_after k) acts' s) = out s /\
     pulls (run (seq_gen xs) (pause_after k) acts' s) = pulls s).
Proof.
  intros xs k acts acts' Hk Hr Hr' s.
  destruct (pinv_run xs k ltac:(lia) acts (subscribe_init false)
              (pinv_init xs k ltac:(lia)) Hr) as (Ha & Hb & Hc & Hd).
  fold s in Ha, Hb, Hc, Hd.
  assert (Hle : length (out s) <= k).
  { destruct (Nat.le_gt_cases (length (out s)) k) as [H|H]; auto.
    destruct (Hd ltac:(lia)); lia. }
  assert (Hpre : out s = map to_event (firstn (length (out s)) xs)).
  { transitivity (map (expected xs) (seq 0 (length (out s)))); [exact Hb|].
    apply expected_prefix; lia. }
  split; [exact Hle|]. split; [exact Hpre|].
  intros Hlen. split; [rewrite Hpre, Hlen; reflexivity|].
  destruct (Hd ltac:(lia)) as [Hj _].
  destruct (idle_stays_idle (seq_gen xs) (pause_after k) acts' s Hj Hr')
    as (_ & Hp & Ho).
  split; assumption.
Qed.

(** ** Further properties of the pump and the gate *)

Lemma onPauseValue_others (b : bool) (s : St) :
  hasEnded (onPauseValue b s) = hasEnded s /\ pulls (onPauseValue b s) = pulls s /\
  out (onPauseValue b s) = out s /\ errs (onPauseValue b s) = errs s /\
  subscribed (onPauseValue b s) = subscribed s /\ closed (onPauseValue b s) = closed s.
Proof.
  unfold onPauseValue; simpl.
  destruct (differs (paused s) b), b, (hasEnded s) eqn:E; simpl; repeat split;
    congruence.
Qed.

Lemma do_ctls_ended (cs : list ctl) (s : St) :
  hasEnded s = true ->
  hasEnded (do_ctls cs s) = true /\ jobs (do_ctls cs s) = jobs s /\
  pulls (do_ctls cs s) = pulls s.
Proof.
  revert s; induction cs as [|c cs IH]; intros s He; simpl; auto.
  destruct (IH (do_ctl c s)) as (A & B & C).
  - destruct c; unfold do_ctl, pause, resume;
      rewrite (proj1 (onPauseValue_others _ s)); exact He.
  - assert (Hj : jobs (do_ctl c s) = jobs s).
    { destruct c; unfold do_ctl, pause, resume;
        rewrite onPauseValue_jobs, He, !andb_false_r; reflexivity. }
    assert (Hp : pulls (do_ctl c s) = pulls s)
      by (destruct c; unfold do_ctl, pause, resume; apply onPauseValue_others).
    repeat split; congruence.
Qed.

Lemma do_ctls_pauses_only (cs : list ctl) (s : St) :
  ~ In CResume cs ->
  do_ctls cs s = match cs with [] => s | _ => pause s end.
Proof.
  revert s; induction cs as [|c cs IH]; intros s Hr; [reflexivity|].
  destruct c; [|exfalso; apply Hr; left; reflexivity].
  simpl. rewrite IH by (intros H; apply Hr; right; exact H).
  destruct cs; [reflexivity|]. apply onPauseValue_idem.
Qed.

Lemma sink_ended (onv : list ev -> list ctl) (e : ev) (s : St) :
  hasEnded s = true ->
  hasEnded (sink onv e s) = true /\ jobs (sink onv e s) = jobs s /\
  pulls (sink onv e s) = pulls s.
Proof.
  intros He. unfold sink.
  destruct (subscribed s && negb (closed s)); [|auto].
  pose proof (do_ctls_ended (onv (out s ++ [e]))
                (set_closed (match e with EndE => true | _ => false end)
                   (set_out (out s ++ [e]) s)) He) as (A & B & C).
  simpl in B, C. auto.
Qed.

(** One step after [End] was latched: the flag stays set and the queued
    iterations plus the pulls made never grow. *)
Lemma ended_step (gen : nat -> outcome) (onv : list ev -> list ctl)
    (a : act) (s : St) :
  hasEnded s = true ->
  hasEnded (exec gen onv a s) = true /\
  jobs (exec gen onv a s) + pulls (exec gen onv a s) <= jobs s + pulls s.
Proof.
  intros He. destruct a; cbn [exec].
  - destruct (jobs s) as [|n] eqn:Ej; [rewrite He, Ej; split; [reflexivity|lia]|].
    unfold pump_job; simpl.
    destruct (gen (pulls s)) as [v|e]; simpl; [|rewrite He; lia].
    unfold pauseSink.
    destruct (is_end_test v) as [isEnd|]; simpl; [|rewrite He; lia].
    set (s0 := if isEnd then set_hasEnded true (set_pulls (S (pulls s)) (set_jobs n s))
               else set_pulls (S (pulls s)) (set_jobs n s)).
    assert (H0 : hasEnded s0 = true /\ jobs s0 = n /\ pulls s0 = S (pulls s))
      by (subst s0; destruct isEnd; simpl; auto).
    destruct H0 as (H0e & H0j & H0p).
    destruct (sink_ended onv (to_event v) s0 H0e) as (A & B & C).
    rewrite A, andb_false_r. rewrite A, B, C, H0j. split; [reflexivity|lia].
  - destruct (pause_fields s) as (_ & A & B & C & _). rewrite A, B, C, He. split; auto.
  - unfold resume. rewrite onPauseValue_jobs, He, !andb_false_r.
    destruct (onPauseValue_others false s) as (A & B & _). rewrite A, B, He. split; auto.
  - simpl. rewrite He. split; auto.
Qed.

(** After the [End] event has gone through [pauseSink] ([hasEnded] set),
    no [pause()]/[resume()] calls, subscriber callbacks or iterations
    ever raise the number of queued iterations plus the number of pulls:
    the producer is called again only by iterations that were already
    queued, and never when none was. *)
Theorem ended_no_new_pulls :
  forall (gen : nat -> outcome) (onv : list ev -> list ctl) (acts : list act) (s : St),
    hasEnded s = true ->
    hasEnded (run gen onv acts s) = true /\
    jobs (run gen onv acts s) + pulls (run gen onv acts s) <= jobs s + pulls s.
Proof.
  intros gen onv acts. induction acts as [|a acts IH]; intros s He; simpl; [auto|].
  destruct (ended_step gen onv a s He) as (A & B).
  destruct (IH (exec gen onv a s) A) as (C & D). split; [exact C|lia].
Qed.

Lemma ended_no_new_pulls_witness :
  hasEnded (run (seq_gen []) quiet [AJob] (subscribe_init false)) = true /\
  jobs (run (seq_gen []) quiet [AResume; APause; AResume; AJob]
          (run (seq_gen []) quiet [AJob] (subscribe_init false)))
  + pulls (run (seq_gen []) quiet [AResume; APause; AResume; AJob]
             (run (seq_gen []) quiet [AJob] (subscribe_init false)))
  <= jobs (run (seq_gen []) quiet [AJob] (subscribe_init false))
     + pulls (run (seq_gen []) quiet [AJob] (subscribe_init false)).
Proof.
  split; [reflexivity|].
  apply (ended_no_new_pulls (seq_gen []) quiet [AResume; APause; AResume; AJob]).
  reflexivity.
Defined.

(** A stream created with [initiallyPaused = true]: the handler receives
    [true] at subscription and queues nothing, so as long as [resume()]
    is not called the producer is never called and nothing is
    delivered, whatever the other actions. *)
Theorem initially_paused_never_pulls :
  forall (gen : nat -> outcome) (onv : list ev -> list ctl) (acts : list act),
    ~ In AResume acts ->
    pulls (run gen onv acts (subscribe_init true)) = 0 /\
    out (run gen onv acts (subscribe_init true)) = [].
Proof.
  intros gen onv acts Hr.
  destruct (idle_stays_idle gen onv acts (subscribe_init true) eq_refl Hr)
    as (_ & A & B).
  split; assumption.
Qed.

Lemma initially_paused_never_pulls_witness :
  ~ In AResume [AJob; APause; AJob; AUnsub] /\
  pulls (run (seq_gen [JPlain 0]) quiet [AJob; APause; AJob; AUnsub]
           (subscribe_init true)) = 0 /\
  out (run (seq_gen [JPlain 0]) quiet [AJob; APause; AJob; AUnsub]
         (subscribe_init true)) = [].
Proof.
  split; [simpl; intuition discriminate|].
  apply initially_paused_never_pulls. simpl; intuition discriminate.
Defined.

(** A subscriber whose callback never calls [resume()]. *)
Definition never_resumes (onv : list ev -> list ctl) : Prop :=
  forall o, ~ In CResume (onv o).

Lemma sink_never_resumes (onv : list ev -> list ctl) (e : ev) (s : St) :
  never_resumes onv ->
  jobs (sink onv e s) = jobs s /\ pulls (sink onv e s) = pulls s /\
  hasEnded (sink onv e s) = hasEnded s /\
  (paused s = Some true -> paused (sink onv e s) = Some true).
Proof.
  intros Hn. unfold sink.
  destruct (subscribed s && negb (closed s)); [|auto].
  rewrite (do_ctls_pauses_only _ _ (Hn (out s ++ [e]))).
  destruct (onv (out s ++ [e])) as [|c cs]; [simpl; auto|].
  destruct (pause_fields (set_closed (match e with EndE => true | _ => false end)
                            (set_out (out s ++ [e]) s))) as (A & B & C & D & _).
  rewrite A, B, C, D. simpl. auto.
Qed.

Lemma pump_job_never_resumes (gen : nat -> outcome) (onv : list ev -> list ctl)
    (s : St) :
  never_resumes onv ->
  jobs (pump_job gen onv s) <= S (jobs s) /\
  pulls (pump_job gen onv s) = S (pulls s) /\
  (paused s = Some true ->
   paused (pump_job gen onv s) = Some true /\ jobs (pump_job gen onv s) = jobs s).
Proof.
  intros Hn. unfold pump_job.
  destruct (gen (pulls s)) as [v|e]; [|simpl; auto].
  unfold pauseSink.
  destruct (is_end_test v) as [isEnd|]; [|simpl; auto].
  set (s0 := if isEnd then set_hasEnded true (set_pulls (S (pulls s)) s)
             else set_pulls (S (pulls s)) s).
  assert (H0 : jobs s0 = jobs s /\ pulls s0 = S (pulls s) /\ paused s0 = paused s)
    by (subst s0; destruct isEnd; simpl; auto).
  destruct H0 as (H0j & H0p & H0q).
  destruct (sink_never_resumes onv (to_event v) s0 Hn) as (A & B & _ & D).
  destruct (not_paused (paused (sink onv (to_event v) s0))
            && negb (hasEnded (sink onv (to_event v) s0))) eqn:Eg; simpl.
  - rewrite A, B, H0j, H0p. split; [lia|]. split; [reflexivity|]. intros Hp.
    rewrite (D ltac:(congruence)) in Eg. discriminate.
  - rewrite A, B, H0j, H0p. split; [lia|]. split; [reflexivity|]. intros Hp.
    split; [apply D; congruence|reflexivity].
Qed.

(** After [pause()], as long as neither the caller nor the subscriber's
    callback calls [resume()], the pause flag stays set and no iteration
    reschedules: the producer is called only by the iterations already
    queued when [pause()] was called (one more pull for a single loop),
    and never when none was. *)
Theorem pause_withholds_new_pulls :
  forall (gen : nat -> outcome) (onv : list ev -> list ctl) (acts : list act) (s : St),
    never_resumes onv -> ~ In AResume acts ->
    paused (run gen onv (APause :: acts) s) = Some true /\
    jobs (run gen onv (APause :: acts) s) + pulls (run gen onv (APause :: acts) s)
      <= jobs s + pulls s.
Proof.
  intros gen onv acts s Hn Hr. cbn [run exec].
  destruct (pause_fields s) as (Pp & _ & Pj & Pl & _).
  rewrite <- Pj, <- Pl. revert Pp. generalize (pause s) as t. clear Pj Pl.
  induction acts as [|a acts IH]; intros t Ht; simpl; [auto|].
  assert (Hr' : ~ In AResume acts) by (intros H; apply Hr; right; exact H).
  assert (Hs : paused (exec gen onv a t) = Some true /\
               jobs (exec gen onv a t) + pulls (exec gen onv a t) <= jobs t + pulls t).
  { destruct a; cbn [exec].
    - destruct (jobs t) as [|n] eqn:Ej; [split; [exact Ht|lia]|].
      destruct (pump_job_never_resumes gen onv (set_jobs n t) Hn) as (_ & B & C).
      destruct (C Ht) as (D & E). simpl in B, E. rewrite D, B, E. split; [reflexivity|lia].
    - destruct (pause_fields t) as (A & _ & B & C & _). rewrite A, B, C. auto.
    - exfalso; apply Hr; left; reflexivity.
    - simpl. auto. }
  destruct Hs as (Hs1 & Hs2).
  destruct (IH Hr' (exec gen onv a t) Hs1) as (A & B). split; [exact A|lia].
Qed.

Lemma pause_withholds_new_pulls_witness :
  never_resumes (pause_after 1) /\ ~ In AResume [AJob; AJob; AJob] /\
  paused (run (seq_gen [JPlain 0; JPlain 1]) (pause_after 1)
            (APause :: [AJob; AJob; AJob]) (subscribe_init false)) = Some true /\
  jobs (run (seq_gen [JPlain 0; JPlain 1]) (pause_after 1)
          (APause :: [AJob; AJob; AJob]) (subscribe_init false))
  + pulls (run (seq_gen [JPlain 0; JPlain 1]) (pause_after 1)
             (APause :: [AJob; AJob; AJob]) (subscribe_init false))
  <= jobs (subscribe_init false) + pulls (subscribe_init false).
Proof.
  assert (Hn : never_resumes (pause_after 1)).
  { intros o. unfold pause_after. destruct (length o =? 1); simpl; intuition discriminate. }
  assert (Hr : ~ In AResume [AJob; AJob; AJob]) by (simpl; intuition discriminate).
  split; [exact Hn|]. split; [exact Hr|].
  apply pause_withholds_new_pulls; assumption.
Defined.

(** Runs in which the caller calls [resume()] only when no iteration is
    queued. *)
Fixpoint resume_when_idle (gen : nat -> outcome) (onv : list ev -> list ctl)
    (acts : list act) (s : St) : bool :=
  match acts with
  | [] => true
  | a :: acts' =>
      match a with AResume => jobs s =? 0 | _ => true end
      && resume_when_idle gen onv acts' (exec gen onv a s)
  end.

(** A single loop: if at most one iteration is queued, the subscriber's
    callback never calls [resume()] and the caller calls [resume()] only
    when no iteration is queued, then at most one iteration is ever
    queued, whatever the producer does. *)
Theorem single_loop_when_resumed_idle :
  forall (gen : nat -> outcome) (onv : list ev -> list ctl) (acts : list act) (s : St),
    never_resumes onv -> jobs s <= 1 ->
    resume_when_idle gen onv acts s = true ->
    jobs (run gen onv acts s) <= 1.
Proof.
  intros gen onv acts. induction acts as [|a acts IH]; intros s Hn Hj Hri;
    simpl in *; [exact Hj|].
  apply andb_true_iff in Hri as [Ha Hri].
  apply IH; auto.
  destruct a; cbn [exec].
  - destruct (jobs s) as [|n] eqn:Ej; [lia|].
    destruct (pump_job_never_resumes gen onv (set_jobs n s) Hn) as (A & _).
    simpl in A. lia.
  - destruct (pause_fields s) as (_ & _ & A & _). lia.
  - apply Nat.eqb_eq in Ha. unfold resume. rewrite onPauseValue_jobs, Ha.
    destruct (differs (paused s) false && negb false && negb (hasEnded s)); lia.
  - simpl. exact Hj.
Qed.

Lemma single_loop_when_resumed_idle_witness :
  never_resumes (pause_after 1) /\ jobs (subscribe_init false) <= 1 /\
  resume_when_idle (seq_gen [JPlain 0; JPlain 1]) (pause_after 1)
    [AJob; AJob; AResume; AJob; AJob] (subscribe_init false) = true /\
  jobs (run (seq_gen [JPlain 0; JPlain 1]) (pause_after 1)
          [AJob; AJob; AResume; AJob; AJob] (subscribe_init false)) <= 1.
Proof.
  assert (Hn : never_resumes (pause_after 1)).
  { intros o. unfold pause_after. destruct (length o =? 1); simpl; intuition discriminate. }
  split; [exact Hn|]. split; [simpl; lia|]. split; [reflexivity|].
  apply single_loop_when_resumed_idle; [exact Hn|simpl; lia|reflexivity].
Defined.

Lemma sink_never_resumes_fields (onv : list ev -> list ctl) (e : ev) (s : St) :
  never_resumes onv ->
  jobs (sink onv e s) = jobs s /\ pulls (sink onv e s) = pulls s /\
  hasEnded (sink onv e s) = hasEnded s /\
  subscribed (sink onv e s) = subscribed s /\
  out (sink onv e s)
    = (if subscribed s && negb (closed s) then out s ++ [e] else out s) /\
  closed (sink onv e s)
    = (if subscribed s && negb (closed s)
       then match e with EndE => true | _ => false end else closed s).
Proof.
  intros Hn. unfold sink.
  destruct (subscribed s && negb (closed s)); [|auto 7].
  rewrite (do_ctls_pauses_only _ _ (Hn (out s ++ [e]))).
  destruct (onv (out s ++ [e])) as [|c cs]; [simpl; auto 7|].
  destruct (pause_fields (set_closed (match e with EndE => true | _ => false end)
                            (set_out (out s ++ [e]) s)))
    as (_ & A & B & C & D & _ & F & G).
  rewrite A, B, C, D, F, G. simpl. auto 7.
Qed.

Lemma pump_job_returns (gen : nat -> outcome) (onv : list ev -> list ctl)
    (s : St) (v : jsval) (b : bool) :
  gen (pulls s) = Returns v -> is_end_test v = Some b ->
  pump_job gen onv s =
  (let s1 := sink onv (to_event v)
               (if b then set_hasEnded true (set_pulls (S (pulls s)) s)
                else set_pulls (S (pulls s)) s) in
   if not_paused (paused s1) && negb (hasEnded s1)
   then repeatUntilPaused s1 else s1).
Proof.
  intros Hg Hv. unfold pump_job. rewrite Hg. unfold pauseSink. rewrite Hv.
  reflexivity.
Qed.

Lemma nth_snoc_end (xs : list jsval) (i : nat) :
  nth i xs JEndEv = nth i (xs ++ [JEndEv]) JEndEv.
Proof.
  revert i; induction xs as [|x xs IH]; intros i; simpl.
  - destruct i as [|[|i]]; reflexivity.
  - destruct i; [reflexivity|apply IH].
Qed.

Lemma out_extend_gen (xs : list jsval) (o : list ev) (e : ev) :
  o = map (expected xs) (seq 0 (length o)) -> expected xs (length o) = e ->
  o ++ [e] = map (expected xs) (seq 0 (length o + 1)).
Proof. apply out_extend. Qed.

Section RoundTrip.

(** The producer yields [xs], values that [pauseSink] accepts, and then
    [new Bacon.End()]; the subscriber's callback may call [pause()] but
    not [resume()]. *)
Variable xs : list jsval.
Hypothesis xs_ordinary : forallb ordinary xs = true.
Variable onv : list ev -> list ctl.
Hypothesis onv_never_resumes : never_resumes onv.

Definition rinv (s : St) : Prop :=
  jobs s <= 1 /\
  out s = map (expected xs) (seq 0 (length (out s))) /\
  length (out s) <= pulls s /\
  (subscribed s = true -> length (out s) = pulls s /\ closed s = hasEnded s) /\
  (hasEnded s = false -> pulls s <= length xs) /\
  (hasEnded s = true -> jobs s = 0 /\ pulls s = S (length xs)).

Lemma rinv_init (ip : bool) : rinv (subscribe_init ip).
Proof.
  unfold rinv; destruct ip; simpl; repeat split; intros; try lia; discriminate.
Qed.

Lemma rinv_job (s : St) :
  rinv s -> rinv (exec (seq_gen xs) onv AJob s).
Proof.
  intros Hinv. cbn [exec].
  destruct (jobs s) as [|n] eqn:Ej; [exact Hinv|].
  destruct Hinv as (I1 & I2 & I3 & I4 & I5 & I6).
  assert (n = 0) by lia; subst n.
  assert (He : hasEnded s = false).
  { destruct (hasEnded s) eqn:E; [destruct (I6 eq_refl); lia|reflexivity]. }
  specialize (I5 He).
  set (t := set_jobs 0 s).
  set (v := nth (pulls s) xs JEndEv).
  assert (Hg : seq_gen xs (pulls t) = Returns v) by reflexivity.
  (* the value is ordinary before the end of [xs], and [End] at its end *)
  assert (Hv : (pulls s < length xs /\ is_end_test v = Some false /\
                (forall E, to_event v <> EndE \/ E)) \/
               (pulls s = length xs /\ v = JEndEv)).
  { destruct (Nat.lt_ge_cases (pulls s) (length xs)) as [Hl|Hl].
    - left. split; [exact Hl|].
      assert (Ho : ordinary v = true).
      { rewrite forallb_forall in xs_ordinary. apply xs_ordinary, nth_In, Hl. }
      destruct v; try discriminate; split; auto; intros; left; discriminate.
    - right. split; [lia|]. subst v. apply nth_overflow. lia. }
  destruct Hv as [(Hl & Hb & Hne) | (Hl & Hvv)].
  - rewrite (pump_job_returns (seq_gen xs) onv t v false Hg Hb).
    set (s0 := set_pulls (S (pulls t)) t).
    set (s1 := sink onv (to_event v) s0).
    destruct (sink_never_resumes_fields onv (to_event v) s0 onv_never_resumes)
      as (A & B & C & D & E & F).
    fold s1 in A, B, C, D, E, F.
    assert (Hnotend : match to_event v with EndE => true | _ => false end = false).
    { destruct (Hne False) as [H|[]]. destruct (to_event v); auto. congruence. }
    assert (Hr : forall r, jobs r <= 1 -> pulls r = pulls s1 -> out r = out s1 ->
                 hasEnded r = hasEnded s1 -> subscribed r = subscribed s1 ->
                 closed r = closed s1 -> rinv r).
    { intros r R1 R2 R3 R4 R5 R6. unfold rinv.
      rewrite R2, R3, R4, R5, R6, B, C, D, E, F. subst s0 t. simpl.
      rewrite He. rewrite Hnotend.
      destruct (subscribed s) eqn:Es.
      - destruct (I4 eq_refl) as [Hlen Hcl]. rewrite Hcl, He. simpl.
        repeat split; intros; try lia; try discriminate; auto.
        + rewrite length_app. simpl. apply out_extend_gen; auto.
          unfold expected. rewrite Hlen. reflexivity.
        + rewrite length_app; simpl; lia.
        + rewrite length_app; simpl; lia.
      - simpl. repeat split; intros; try lia; try discriminate; auto. }
    cbv zeta.
    destruct (not_paused (paused s1) && negb (hasEnded s1)).
    + apply Hr; try reflexivity.
      change (jobs (repeatUntilPaused s1)) with (S (jobs s1)).
      rewrite A. subst s0 t. simpl. lia.
    + apply Hr; try reflexivity. rewrite A. subst s0 t. simpl. lia.
  - rewrite (pump_job_returns (seq_gen xs) onv t v true Hg ltac:(rewrite Hvv; reflexivity)).
    set (s0 := set_hasEnded true (set_pulls (S (pulls t)) t)).
    set (s1 := sink onv (to_event v) s0).
    destruct (sink_never_resumes_fields onv (to_event v) s0 onv_never_resumes)
      as (A & B & C & D & E & F).
    fold s1 in A, B, C, D, E, F.
    cbv zeta.
    assert (Hend1 : hasEnded s1 = true) by (rewrite C; reflexivity).
    rewrite Hend1, andb_false_r.
    unfold rinv. rewrite A, B, C, D, E, F. subst s0 t. simpl.
    rewrite Hvv. simpl.
    destruct (subscribed s) eqn:Es.
    + destruct (I4 eq_refl) as [Hlen Hcl]. rewrite Hcl, He. simpl.
      repeat split; intros; try lia; try discriminate; auto.
      * rewrite length_app. simpl. apply out_extend_gen; auto.
        unfold expected. rewrite Hlen, Hl, nth_overflow by lia. reflexivity.
      * rewrite length_app; simpl; lia.
      * rewrite length_app; simpl; lia.
    + simpl. repeat split; intros; try lia; try discriminate; auto.
Qed.

Lemma rinv_step (a : act) (s : St) :
  rinv s -> (a = AResume -> jobs s = 0) ->
  rinv (exec (seq_gen xs) onv a s).
Proof.
  intros Hinv Hres. destruct a; cbn [exec].
  - apply rinv_job; exact Hinv.
  - destruct (pause_fields s) as (_ & A & B & C & D & _ & F & G).
    unfold rinv in *. rewrite A, B, C, D, F, G. exact Hinv.
  - specialize (Hres eq_refl).
    destruct (onPauseValue_others false s) as (A & B & C & _ & F & G).
    pose proof (onPauseValue_jobs false s) as J.
    destruct Hinv as (I1 & I2 & I3 & I4 & I5 & I6).
    unfold resume, rinv. rewrite A, B, C, F, G, J, Hres.
    split; [destruct (differs (paused s) false && negb false && negb (hasEnded s)); lia|].
    split; [exact I2|]. split; [exact I3|]. split; [exact I4|]. split; [exact I5|].
    intros He. rewrite He, !andb_false_r. split; [reflexivity|].
    destruct (I6 He); assumption.
  - destruct Hinv as (I1 & I2 & I3 & I4 & I5 & I6).
    unfold rinv; simpl.
    split; [exact I1|]. split; [exact I2|]. split; [exact I3|].
    split; [discriminate|]. split; [exact I5|exact I6].
Qed.

Lemma rinv_run (acts : list act) (s : St) :
  rinv s -> resume_when_idle (seq_gen xs) onv acts s = true ->
  rinv (run (seq_gen xs) onv acts s).
Proof.
  revert s; induction acts as [|a acts IH]; intros s Hinv Hri; simpl in *; auto.
  apply andb_true_iff in Hri as [Ha Hri].
  apply IH; auto. apply rinv_step; auto.
  intros ->. apply Nat.eqb_eq. exact Ha.
Qed.

End RoundTrip.

(** In the single-event model (one event per pull, every event
    dispatched): pausing and resuming loses, duplicates and reorders nothing: the
    producer yields values that [pauseSink] accepts (no [undefined] or
    [null]) and then [new Bacon.End()], the subscriber's callback may
    call [pause()] but not [resume()], and the caller calls [pause()]
    freely and [resume()] only when no iteration is queued, starting
    paused or not.  At every point the delivered events are the first
    events of the producer in order, and once the stream has ended for a
    subscriber still subscribed it has received all of them followed by
    one [End]. *)
Lemma delivers_in_order_single :
  forall (xs : list jsval) (onv : list ev -> list ctl) (ip : bool) (acts : list act),
    forallb ordinary xs = true -> never_resumes onv ->
    resume_when_idle (seq_gen xs) onv acts (subscribe_init ip) = true ->
    let s := run (seq_gen xs) onv acts (subscribe_init ip) in
    out s = map to_event (firstn (length (out s)) (xs ++ [JEndEv])) /\
    (subscribed s = true -> hasEnded s = true -> out s = map to_event xs ++ [EndE]).
Proof.
  intros xs onv ip acts Hx Hn Hri s.
  destruct (rinv_run xs Hx onv Hn acts (subscribe_init ip) (rinv_init xs ip) Hri)
    as (I1 & I2 & I3 & I4 & I5 & I6).
  fold s in I1, I2, I3, I4, I5, I6.
  assert (Hlen : length (out s) <= length (xs ++ [JEndEv])).
  { rewrite length_app; simpl.
    destruct (hasEnded s) eqn:He.
    - destruct (I6 eq_refl); lia.
    - specialize (I5 eq_refl); lia. }
  assert (Hpre : out s = map to_event (firstn (length (out s)) (xs ++ [JEndEv]))).
  { rewrite <- expected_prefix by exact Hlen.
    rewrite I2 at 1.
    apply map_ext. intros i. unfold expected. rewrite nth_snoc_end. reflexivity. }
  split; [exact Hpre|].
  intros Hs He. destruct (I4 Hs) as [Hl _]. destruct (I6 He) as [_ Hp].
  rewrite Hpre, Hl, Hp, firstn_all2 by (rewrite length_app; simpl; lia).
  rewrite map_app. reflexivity.
Qed.

(** ** Pull counts *)

Lemma do_ctls_pulls (cs : list ctl) (s : St) : pulls (do_ctls cs s) = pulls s.
Proof.
  revert s; induction cs as [|c cs IH]; intros s; simpl; [reflexivity|].
  rewrite IH. destruct c; unfold do_ctl, pause, resume; apply onPauseValue_others.
Qed.

Lemma sink_pulls (onv : list ev -> list ctl) (e : ev) (s : St) :
  pulls (sink onv e s) = pulls s.
Proof.
  unfold sink. destruct (subscribed s && negb (closed s)); [|reflexivity].
  rewrite do_ctls_pulls. reflexivity.
Qed.

(** Every iteration calls the producer exactly once. *)
Lemma pump_job_pulls (gen : nat -> outcome) (onv : list ev -> list ctl) (s : St) :
  pulls (pump_job gen onv s) = S (pulls s).
Proof.
  unfold pump_job. destruct (gen (pulls s)) as [v|e]; [|reflexivity].
  unfold pauseSink. destruct (is_end_test v) as [b|]; [|reflexivity].
  cbv zeta.
  match goal with |- context [if ?c then _ else _] => destruct c end;
    unfold repeatUntilPaused; simpl; rewrite sink_pulls; destruct b; reflexivity.
Qed.

Lemma exec_pulls_mono (gen : nat -> outcome) (onv : list ev -> list ctl)
    (a : act) (s : St) :
  pulls s <= pulls (exec gen onv a s).
Proof.
  destruct a; cbn [exec].
  - destruct (jobs s) as [|n]; [lia|]. rewrite pump_job_pulls. simpl. lia.
  - destruct (pause_fields s) as (_ & _ & _ & A & _). lia.
  - unfold resume. destruct (onPauseValue_others false s) as (_ & A & _). lia.
  - simpl. lia.
Qed.

Lemma run_pulls_mono (gen : nat -> outcome) (onv : list ev -> list ctl)
    (acts : list act) (s : St) :
  pulls s <= pulls (run gen onv acts s).
Proof.
  revert s; induction acts as [|a acts IH]; intros s; simpl; [lia|].
  pose proof (exec_pulls_mono gen onv a s). specialize (IH (exec gen onv a s)). lia.
Qed.

Lemma ended_run_bound (gen : nat -> outcome) (onv : list ev -> list ctl)
    (acts : list act) (s : St) :
  hasEnded s = true ->
  jobs (run gen onv acts s) + pulls (run gen onv acts s) <= jobs s + pulls s.
Proof.
  revert s; induction acts as [|a acts IH]; intros s He; simpl; [lia|].
  destruct (ended_step gen onv a s He) as (A & B).
  specialize (IH (exec gen onv a s) A). lia.
Qed.

(** ** C8: a producer that throws (continued) *)

(** C8 (amended): when the pull of the only queued iteration raises,
    that iteration is aborted: nothing is delivered to the subscriber (no
    value and no error event), the exception rejects the pump's promise,
    the loop does not reschedule, the pause and end flags are unchanged,
    and no further pull or delivery happens as long as [resume()] is not
    called.  If the stream has not ended, a later [pause()] followed by
    [resume()] queues one iteration, which calls the producer again; if
    it has ended, the producer is never called again. *)
Theorem producer_throw_stops_pump :
  forall (gen : nat -> outcome) (onv : list ev -> list ctl) (s : St) (e : nat),
    jobs s = 1 -> gen (pulls s) = Throws e ->
    let s' := exec gen onv AJob s in
    out s' = out s /\ errs s' = errs s ++ [ProducerErr e] /\
    jobs s' = 0 /\ pulls s' = S (pulls s) /\
    paused s' = paused s /\ hasEnded s' = hasEnded s /\
    (forall acts, ~ In AResume acts ->
       pulls (run gen onv acts s') = pulls s' /\
       out (run gen onv acts s') = out s') /\
    (hasEnded s = false ->
       jobs (run gen onv [APause; AResume] s') = 1 /\
       pulls (run gen onv [APause; AResume; AJob] s') = S (pulls s')) /\
    (hasEnded s = true ->
       forall acts, pulls (run gen onv acts s') = pulls s').
Proof.
  intros gen onv s e Hj Hg s'.
  assert (Hs' : s' = set_errs (errs s ++ [ProducerErr e])
                       (set_pulls (S (pulls s)) (set_jobs 0 s))).
  { subst s'. unfold exec. rewrite Hj. unfold pump_job. simpl.
    rewrite Hg. reflexivity. }
  clearbody s'. subst s'.
  do 6 (split; [reflexivity|]).
  split; [|split].
  - intros acts Hr.
    destruct (idle_stays_idle gen onv acts
        (set_errs (errs s ++ [ProducerErr e]) (set_pulls (S (pulls s)) (set_jobs 0 s))))
        as (_ & A & B); auto.
  - intros He.
    set (t := set_errs (errs s ++ [ProducerErr e]) (set_pulls (S (pulls s)) (set_jobs 0 s))).
    assert (Ht : jobs t = 0 /\ hasEnded t = false) by (subst t; simpl; auto).
    destruct Ht as [Htj Hte].
    destruct (pause_fields t) as (Pp & Pe & Pj & Pl & _).
    assert (Hj1 : jobs (run gen onv [APause; AResume] t) = 1).
    { cbn [run exec]. unfold resume. rewrite onPauseValue_jobs, Pp, Pe, Pj, Hte, Htj.
      reflexivity. }
    split; [exact Hj1|].
    change (run gen onv [APause; AResume; AJob] t)
      with (exec gen onv AJob (run gen onv [APause; AResume] t)).
    unfold exec at 1. rewrite Hj1. rewrite pump_job_pulls. simpl.
    unfold resume. rewrite (proj1 (proj2 (onPauseValue_others false (pause t)))), Pl.
    reflexivity.
  - intros He acts.
    set (t := set_errs (errs s ++ [ProducerErr e]) (set_pulls (S (pulls s)) (set_jobs 0 s))).
    assert (Ht : jobs t = 0 /\ hasEnded t = true) by (subst t; simpl; auto).
    destruct Ht as [Htj Hte].
    pose proof (ended_run_bound gen onv acts t Hte) as A.
    pose proof (run_pulls_mono gen onv acts t) as B. lia.
Qed.

Lemma producer_throw_stops_pump_witness :
  jobs (subscribe_init false) = 1 /\
  throws_first (pulls (subscribe_init false)) = Throws 7 /\
  out (exec throws_first quiet AJob (subscribe_init false)) = [] /\
  pulls (run throws_first quiet [APause; AResume; AJob]
           (exec throws_first quiet AJob (subscribe_init false))) = 2.
Proof.
  split; [reflexivity|]. split; [reflexivity|].
  destruct (producer_throw_stops_pump throws_first quiet (subscribe_init false) 7
              eq_refl eq_refl) as (A & _ & _ & B & _ & _ & _ & C & _).
  split; [exact A|].
  destruct (C eq_refl) as (_ & D). rewrite D, B. reflexivity.
Defined.

(** ** Bacon's side of the delivery *)

(** What the producer's value becomes in Bacon.  [fromBinder]'s sink
    (the [sink] the binder receives) runs

    [if (!(isArray(value) && isEvent(_.last(value)))) value = [value];]
    [for each element: reply = sink(event = toEvent(element));]
    [  if (reply === Bacon.noMore || event.isEnd) { unbind(); return reply; }]

    and the stream's dispatcher, in [pushIt], drops an event that is the
    same object as the previous [Error] ([prevError]) and records every
    [Error] it pushes there.  [JErrorEv e] is the [Bacon.Error] object
    named [e]: returning it twice returns the same object. *)

(** The last element of an array that [fromBinder] splits: a
    [Bacon.Error] or a [Bacon.End]. *)
Inductive lastev := LError (e : nat) | LEnd.

Definition lastev_val (l : lastev) : jsval :=
  match l with LError e => JErrorEv e | LEnd => JEndEv end.

(** A value the producer returns: one value ([PV]; an array whose last
    element is not an event is one plain value), or an array [vs ++ [l]]
    whose last element is an event ([PEvArr vs l]). *)
Inductive pval := PV (v : jsval) | PEvArr (vs : list jsval) (l : lastev).

Inductive routcome := RReturns (p : pval) | RThrows (e : nat).

(** [streamEvent.isEnd && streamEvent.isEnd()] in [pauseSink]: an array
    has no [isEnd] member. *)
Definition is_end_testR (p : pval) : option bool :=
  match p with PV v => is_end_test v | PEvArr _ _ => Some false end.

(** The events [fromBinder]'s sink makes of the value, in order. *)
Definition binder_events (p : pval) : list ev :=
  match p with
  | PV v => [to_event v]
  | PEvArr vs l => map to_event (vs ++ [lastev_val l])
  end.

Definition same_error (e : ev) (pe : option nat) : bool :=
  match e, pe with ErrorE x, Some y => Nat.eqb x y | _, _ => false end.

Definition next_prev (e : ev) (pe : option nat) : option nat :=
  match e with ErrorE x => Some x | _ => pe end.

Definition is_end_ev (e : ev) : bool :=
  match e with EndE => true | _ => false end.

Section BaconDelivery.

Variable genR : nat -> routcome.
Variable onEvent : list ev -> list ctl.

(** The dispatcher's [pushIt]; the boolean is [reply === Bacon.noMore]
    (no subscriber left).  A dropped event answers [undefined]. *)
Definition dispatch (e : ev) (s : St) (pe : option nat) : St * option nat * bool :=
  if same_error e pe then (s, pe, false)
  else let s' := sink onEvent e s in (s', next_prev e pe, negb (subscribed s')).

(** The loop of [fromBinder]'s sink over the events of one value. *)
Fixpoint binder_push (es : list ev) (s : St) (pe : option nat) : St * option nat :=
  match es with
  | [] => (s, pe)
  | e :: es' =>
      let '(s', pe', nomore) := dispatch e s pe in
      if nomore || is_end_ev e then (s', pe') else binder_push es' s' pe'
  end.

(** [pauseSink] (lines 62-71) in front of [fromBinder]'s sink. *)
Definition pauseSinkR (p : pval) (s : St) (pe : option nat) : option (St * option nat) :=
  match is_end_testR p with
  | None => None
  | Some isEnd =>
      let s1 := if isEnd then set_hasEnded true s else s in
      Some (binder_push (binder_events p) s1 pe)
  end.

(** One job of [repeatUntilPaused] (lines 111-117). *)
Definition pump_jobR (s : St) (pe : option nat) : St * option nat :=
  let s0 := set_pulls (S (pulls s)) s in
  match genR (pulls s) with
  | RThrows e => (set_errs (errs s0 ++ [ProducerErr e]) s0, pe)
  | RReturns p =>
      match pauseSinkR p s0 pe with
      | None => (set_errs (errs s0 ++ [TypeErr]) s0, pe)
      | Some (s1, pe1) =>
          (if not_paused (paused s1) && negb (hasEnded s1)
           then repeatUntilPaused s1 else s1, pe1)
      end
  end.

Definition execR (a : act) (r : St * option nat) : St * option nat :=
  let (s, pe) := r in
  match a with
  | AJob =>
      match jobs s with
      | 0 => (s, pe)
      | S n => pump_jobR (set_jobs n s) pe
      end
  | APause => (pause s, pe)
  | AResume => (resume s, pe)
  | AUnsub => (unsubscribe s, pe)
  end.

Fixpoint runR (acts : list act) (r : St * option nat) : St * option nat :=
  match acts with
  | [] => r
  | a :: acts' => runR acts' (execR a r)
  end.

(** Each [resume()] comes when no iteration is queued. *)
Fixpoint resume_when_idleR (acts : list act) (r : St * option nat) : bool :=
  match acts with
  | [] => true
  | a :: acts' =>
      match a with AResume => jobs (fst r) =? 0 | _ => true end
      && resume_when_idleR acts' (execR a r)
  end.

End BaconDelivery.

(** A producer returning single values: its results as [fromBinder]'s
    sink receives them. *)
Definition lift (g : nat -> outcome) (i : nat) : routcome :=
  match g i with Returns v => RReturns (PV v) | Throws e => RThrows e end.

(** The producer never returns the same [Bacon.Error] object twice. *)
Definition fresh_errors (g : nat -> outcome) : Prop :=
  forall i j x, g i = Returns (JErrorEv x) -> g j = Returns (JErrorEv x) -> i = j.

Fixpoint err_ids (xs : list jsval) : list nat :=
  match xs with
  | [] => []
  | JErrorEv e :: r => e :: err_ids r
  | _ :: r => err_ids r
  end.

Fixpoint nodupb (l : list nat) : bool :=
  match l with
  | [] => true
  | x :: r => negb (existsb (Nat.eqb x) r) && nodupb r
  end.

Definition errors_fresh (xs : list jsval) : bool := nodupb (err_ids xs).

(** [prevError], when set, is an error the producer returned at an
    earlier pull. *)
Definition prev_ok (g : nat -> outcome) (s : St) (pe : option nat) : Prop :=
  forall x, pe = Some x -> exists i, i < pulls s /\ g i = Returns (JErrorEv x).

Lemma nth_err_in (r : list jsval) (j x : nat) :
  nth j r JEndEv = JErrorEv x -> In x (err_ids r).
Proof.
  revert j; induction r as [|a r IH]; intros j H; destruct j as [|j]; simpl in H;
    try discriminate.
  - subst a. simpl. left; reflexivity.
  - destruct a; simpl; try (apply IH with j; exact H). right; apply IH with j; exact H.
Qed.

Lemma errors_fresh_seq_gen (xs : list jsval) :
  errors_fresh xs = true -> fresh_errors (seq_gen xs).
Proof.
  unfold errors_fresh, fresh_errors, seq_gen.
  intros Hf i j x Hi Hj. injection Hi as Hi. injection Hj as Hj.
  revert i j Hf Hi Hj; induction xs as [|a r IH]; intros i j Hf Hi Hj.
  - destruct i; discriminate.
  - assert (Hr : nodupb (err_ids r) = true).
    { destruct a; simpl in Hf; auto. apply andb_true_iff in Hf as [_ Hf]; exact Hf. }
    destruct i as [|i], j as [|j]; simpl in Hi, Hj; [reflexivity| | |].
    + subst a. simpl in Hf. apply andb_true_iff in Hf as [Hf _].
      apply negb_true_iff in Hf. exfalso.
      assert (Hin : existsb (Nat.eqb x) (err_ids r) = true).
      { apply existsb_exists. exists x. split; [apply nth_err_in with j; exact Hj|].
        apply Nat.eqb_refl. }
      congruence.
    + subst a. simpl in Hf. apply andb_true_iff in Hf as [Hf _].
      apply negb_true_iff in Hf. exfalso.
      assert (Hin : existsb (Nat.eqb x) (err_ids r) = true).
      { apply existsb_exists. exists x. split; [apply nth_err_in with i; exact Hi|].
        apply Nat.eqb_refl. }
      congruence.
    + f_equal. apply IH; auto.
Qed.

Lemma push_single (onv : list ev -> list ctl) (v : jsval) (s : St) (pe : option nat) :
  same_error (to_event v) pe = false ->
  binder_push onv [to_event v] s pe = (sink onv (to_event v) s, next_prev (to_event v) pe).
Proof.
  intros H. simpl. unfold dispatch. rewrite H.
  destruct (negb (subscribed (sink onv (to_event v) s)) || is_end_ev (to_event v));
    reflexivity.
Qed.

(** For a producer returning single values and never the same error
    object twice, Bacon's side dispatches every value as one event: the
    run is the one of the single-event model. *)
Lemma execR_lift (g : nat -> outcome) (onv : list ev -> list ctl) (a : act)
    (s : St) (pe : option nat) :
  fresh_errors g -> prev_ok g s pe ->
  fst (execR (lift g) onv a (s, pe)) = exec g onv a s /\
  prev_ok g (exec g onv a s) (snd (execR (lift g) onv a (s, pe))).
Proof.
  intros Hf Hok. destruct a; cbn [execR exec fst snd].
  - destruct (jobs s) as [|n]; [split; [reflexivity|exact Hok]|].
    unfold pump_jobR, pump_job, lift.
    change (pulls (set_jobs n s)) with (pulls s).
    destruct (g (pulls s)) as [v|e] eqn:Hg.
    + unfold pauseSinkR, pauseSink. cbn [is_end_testR binder_events].
      destruct (is_end_test v) as [b|] eqn:Hb.
      * assert (Hse : same_error (to_event v) pe = false).
        { destruct v; try reflexivity. destruct pe as [y|]; [|reflexivity].
          simpl. destruct (Nat.eqb_spec e y) as [E|E]; [|reflexivity].
          subst y. destruct (Hok e eq_refl) as (i & Hi & Hgi).
          pose proof (Hf _ _ _ Hgi Hg). lia. }
        rewrite push_single by exact Hse. cbv zeta. cbn [fst snd].
        split; [reflexivity|].
        intros x Hx.
        assert (Hp : pulls (if not_paused (paused (sink onv (to_event v)
                        (if b then set_hasEnded true (set_pulls (S (pulls s)) (set_jobs n s))
                         else set_pulls (S (pulls s)) (set_jobs n s))))
                      && negb (hasEnded (sink onv (to_event v)
                        (if b then set_hasEnded true (set_pulls (S (pulls s)) (set_jobs n s))
                         else set_pulls (S (pulls s)) (set_jobs n s))))
                      then repeatUntilPaused (sink onv (to_event v)
                        (if b then set_hasEnded true (set_pulls (S (pulls s)) (set_jobs n s))
                         else set_pulls (S (pulls s)) (set_jobs n s)))
                      else sink onv (to_event v)
                        (if b then set_hasEnded true (set_pulls (S (pulls s)) (set_jobs n s))
                         else set_pulls (S (pulls s)) (set_jobs n s))) = S (pulls s)).
        { match goal with |- context [if ?c then _ else _] => destruct c end;
            unfold repeatUntilPaused; simpl; rewrite sink_pulls; destruct b; reflexivity. }
        rewrite Hp.
        destruct v; simpl in Hx;
          try (destruct (Hok x Hx) as (i & Hi & Hgi); exists i; split; [lia|exact Hgi]).
        injection Hx as <-. exists (pulls s). split; [lia|exact Hg].
      * cbn [fst snd]. split; [reflexivity|].
        intros x Hx. destruct (Hok x Hx) as (i & Hi & Hgi). exists i.
        simpl. split; [lia|exact Hgi].
    + cbn [fst snd]. split; [reflexivity|].
      intros x Hx. destruct (Hok x Hx) as (i & Hi & Hgi). exists i.
      simpl. split; [lia|exact Hgi].
  - split; [reflexivity|].
    destruct (pause_fields s) as (_ & _ & _ & A & _).
    intros x Hx. rewrite A. exact (Hok x Hx).
  - split; [reflexivity|].
    destruct (onPauseValue_others false s) as (_ & A & _).
    intros x Hx. unfold resume. rewrite A. exact (Hok x Hx).
  - split; [reflexivity|]. exact Hok.
Qed.

Lemma runR_lift (g : nat -> outcome) (onv : list ev -> list ctl) (acts : list act)
    (s : St) (pe : option nat) :
  fresh_errors g -> prev_ok g s pe ->
  fst (runR (lift g) onv acts (s, pe)) = run g onv acts s /\
  prev_ok g (run g onv acts s) (snd (runR (lift g) onv acts (s, pe))).
Proof.
  intros Hf. revert s pe; induction acts as [|a acts IH]; intros s pe Hok;
    cbn [runR run]; [split; [reflexivity|exact Hok]|].
  destruct (execR_lift g onv a s pe Hf Hok) as (A & B).
  destruct (execR (lift g) onv a (s, pe)) as [s1 pe1]. cbn [fst snd] in A, B. subst s1.
  apply IH. exact B.
Qed.

Lemma resume_when_idleR_lift (g : nat -> outcome) (onv : list ev -> list ctl)
    (acts : list act) (s : St) (pe : option nat) :
  fresh_errors g -> prev_ok g s pe ->
  resume_when_idleR (lift g) onv acts (s, pe) = resume_when_idle g onv acts s.
Proof.
  intros Hf. revert s pe; induction acts as [|a acts IH]; intros s pe Hok;
    cbn [resume_when_idleR resume_when_idle]; [reflexivity|].
  destruct (execR_lift g onv a s pe Hf Hok) as (A & B).
  destruct (execR (lift g) onv a (s, pe)) as [s1 pe1]. cbn [fst snd] in A, B. subst s1.
  rewrite IH by exact B. reflexivity.
Qed.

Lemma prev_ok_init (g : nat -> outcome) (ip : bool) : prev_ok g (subscribe_init ip) None.
Proof. intros x Hx; discriminate. Qed.

(** ** C2: pausing from the delivery callback, with Bacon's delivery *)

(** A producer whose first call returns the array [[0, new Bacon.Error(5)]]
    and then [new Bacon.End()]. *)
Definition array_gen (i : nat) : routcome :=
  if i =? 0 then RReturns (PEvArr [JPlain 0] (LError 5)) else RReturns (PV JEndEv).

(** A producer that returns the same [Bacon.Error] object twice, then
    [new Bacon.End()]. *)
Definition same_error_gen (i : nat) : routcome :=
  if i <? 2 then RReturns (PV (JErrorEv 5)) else RReturns (PV JEndEv).

(** C2 (counterexample): with the array producer and [pause()] called
    from the callback at the first event, the second event of the same
    pull is still delivered after [pause()]; with the producer returning
    one error object twice ([S = [e, e]]) and [pause()] at the second
    event, the second [e] is dropped by the dispatcher and the delivered
    prefix at the pause is [[e, End]], not [S[0..2) = [e, e]]. *)
Lemma bacon_splits_arrays_and_drops_repeated_errors :
  paused (fst (runR array_gen (pause_after 1) [AJob] (subscribe_init false, None)))
    = Some true /\
  out (fst (runR array_gen (pause_after 1) [AJob] (subscribe_init false, None)))
    = [Next (JPlain 0); ErrorE 5] /\
  out (fst (runR same_error_gen (pause_after 2) [AJob; AJob; AJob]
              (subscribe_init false, None)))
    = [ErrorE 5; EndE] /\
  paused (fst (runR same_error_gen (pause_after 2) [AJob; AJob; AJob]
                 (subscribe_init false, None))) = Some true /\
  map to_event (firstn 2 [JErrorEv 5; JErrorEv 5]) = [ErrorE 5; ErrorE 5].
Proof. repeat split; reflexivity. Qed.

(** C2 (amended): let the producer return one value per call (not an
    array ending in a [Bacon.Event], which [fromBinder] splits into
    several events of one pull) and never the same [Bacon.Error] object
    twice (the dispatcher drops an error identical to the previous one),
    yielding [S] and then [new Bacon.End()], and let the subscriber call
    [pause()] from its callback when it receives the [k]-th event
    ([1 <= k <= |S|]).  In every run without [resume()] (any
    interleaving of queued iterations, further [pause()] calls and
    unsubscription), at most [k] events are delivered and they are the
    first events of [S] in order; once the [k]-th one is delivered, the
    delivered sequence is exactly [S[0..k)] and no later run without
    [resume()] pulls the producer or delivers anything. *)
Theorem pause_in_callback_withholds_single_events :
  forall (xs : list jsval) (k : nat) (acts acts' : list act),
    1 <= k <= length xs -> errors_fresh xs = true ->
    ~ In AResume acts -> ~ In AResume acts' ->
    let r := runR (lift (seq_gen xs)) (pause_after k) acts (subscribe_init false, None) in
    let r' := runR (lift (seq_gen xs)) (pause_after k) acts' r in
    length (out (fst r)) <= k /\
    out (fst r) = map to_event (firstn (length (out (fst r))) xs) /\
    (length (out (fst r)) = k ->
     out (fst r) = map to_event (firstn k xs) /\
     out (fst r') = out (fst r) /\ pulls (fst r') = pulls (fst r)).
Proof.
  intros xs k acts acts' Hk Hf Hr Hr' r r'.
  pose proof (errors_fresh_seq_gen xs Hf) as Hfr.
  destruct (runR_lift (seq_gen xs) (pause_after k) acts (subscribe_init false) None
              Hfr (prev_ok_init _ false)) as (E1 & P1).
  fold r in E1, P1. subst r'. clearbody r. destruct r as [s pe].
  cbn [fst snd] in E1, P1 |- *.
  rewrite <- E1 in P1.
  destruct (runR_lift (seq_gen xs) (pause_after k) acts' s pe Hfr P1) as (E2 & _).
  rewrite E2. subst s.
  pose proof (withholds_next_single xs k acts acts' Hk Hr Hr') as H.
  cbv zeta in H. exact H.
Qed.

Lemma pause_in_callback_withholds_single_events_witness :
  (1 <= 2 <= 3 /\ errors_fresh [JPlain 0; JErrorEv 3; JPlain 2] = true /\
   ~ In AResume [AJob; AJob; AJob] /\ ~ In AResume [APause; AJob; AUnsub; AJob]) /\
  out (fst (runR (lift (seq_gen [JPlain 0; JErrorEv 3; JPlain 2])) (pause_after 2)
              [AJob; AJob; AJob] (subscribe_init false, None)))
  = [Next (JPlain 0); ErrorE 3] /\
  (let r := runR (lift (seq_gen [JPlain 0; JErrorEv 3; JPlain 2])) (pause_after 2)
              [AJob; AJob; AJob] (subscribe_init false, None) in
   let r' := runR (lift (seq_gen [JPlain 0; JErrorEv 3; JPlain 2])) (pause_after 2)
               [APause; AJob; AUnsub; AJob] r in
   length (out (fst r)) <= 2 /\
   out (fst r) = map to_event (firstn (length (out (fst r))) [JPlain 0; JErrorEv 3; JPlain 2]) /\
   (length (out (fst r)) = 2 ->
    out (fst r) = map to_event (firstn 2 [JPlain 0; JErrorEv 3; JPlain 2]) /\
    out (fst r') = out (fst r) /\ pulls (fst r') = pulls (fst r))).
Proof.
  split; [split; [simpl; lia|]; split; [reflexivity|]; split; simpl; intuition discriminate|].
  split; [reflexivity|].
  apply (pause_in_callback_withholds_single_events [JPlain 0; JErrorEv 3; JPlain 2] 2
           [AJob; AJob; AJob] [APause; AJob; AUnsub; AJob]).
  - simpl; lia.
  - reflexivity.
  - simpl; intuition discriminate.
  - simpl; intuition discriminate.
Defined.

(** ** Pausing and resuming, with Bacon's delivery *)

(** Pausing and resuming loses, duplicates and reorders nothing: the
    producer returns one value per call, each accepted by [pauseSink] (no
    [undefined] or [null]), never the same [Bacon.Error] object twice, and
    then [new Bacon.End()]; the subscriber's callback may call [pause()]
    but not [resume()]; the caller calls [pause()] freely and [resume()]
    only when no iteration is queued, starting paused or not.  At every
    point the delivered events are the first events of the producer in
    order, and once the stream has ended for a subscriber still
    subscribed it has received all of them followed by one [End]. *)
Theorem pause_resume_delivers_in_order_fresh_errors :
  forall (xs : list jsval) (onv : list ev -> list ctl) (ip : bool) (acts : list act),
    forallb ordinary xs = true -> errors_fresh xs = true -> never_resumes onv ->
    resume_when_idleR (lift (seq_gen xs)) onv acts (subscribe_init ip, None) = true ->
    let s := fst (runR (lift (seq_gen xs)) onv acts (subscribe_init ip, None)) in
    out s = map to_event (firstn (length (out s)) (xs ++ [JEndEv])) /\
    (subscribed s = true -> hasEnded s = true -> out s = map to_event xs ++ [EndE]).
Proof.
  intros xs onv ip acts Hx Hf Hn Hri s.
  pose proof (errors_fresh_seq_gen xs Hf) as Hfr.
  rewrite (resume_when_idleR_lift (seq_gen xs) onv acts (subscribe_init ip) None
             Hfr (prev_ok_init _ ip)) in Hri.
  destruct (runR_lift (seq_gen xs) onv acts (subscribe_init ip) None
              Hfr (prev_ok_init _ ip)) as (E & _).
  subst s. rewrite E.
  pose proof (delivers_in_order_single xs onv ip acts Hx Hn Hri) as H.
  cbv zeta in H. exact H.
Qed.

Lemma pause_resume_delivers_in_order_fresh_errors_witness :
  forallb ordinary [JErrorEv 3; JPlain 1] = true /\
  errors_fresh [JErrorEv 3; JPlain 1] = true /\
  never_resumes (pause_after 1) /\
  resume_when_idleR (lift (seq_gen [JErrorEv 3; JPlain 1])) (pause_after 1)
    [AJob; AJob; AResume; AJob; AJob; AJob] (subscribe_init false, None) = true /\
  out (fst (runR (lift (seq_gen [JErrorEv 3; JPlain 1])) (pause_after 1)
              [AJob; AJob; AResume; AJob; AJob; AJob] (subscribe_init false, None)))
  = [ErrorE 3; Next (JPlain 1); EndE] /\
  (let s := fst (runR (lift (seq_gen [JErrorEv 3; JPlain 1])) (pause_after 1)
                  [AJob; AJob; AResume; AJob; AJob; AJob] (subscribe_init false, None)) in
   out s = map to_event (firstn (length (out s)) ([JErrorEv 3; JPlain 1] ++ [JEndEv])) /\
   (subscribed s = true -> hasEnded s = true ->
    out s = map to_event [JErrorEv 3; JPlain 1] ++ [EndE])).
Proof.
  assert (Hn : never_resumes (pause_after 1)).
  { intros o. unfold pause_after. destruct (length o =? 1); simpl; intuition discriminate. }
  split; [reflexivity|]. split; [reflexivity|]. split; [exact Hn|].
  split; [reflexivity|]. split; [reflexivity|].
  apply (pause_resume_delivers_in_order_fresh_errors [JErrorEv 3; JPlain 1] (pause_after 1)
           false [AJob; AJob; AResume; AJob; AJob; AJob]);
    [reflexivity|reflexivity|exact Hn|reflexivity].
Defined.
